(** * NeoHubR: the Neovide IPC benchmark, [scripts/bench_neovide_ipc.py]

    A shallow embedding of the benchmark client: the Python values it
    handles, the socket exchange [send_rpc], the identifier extraction
    [first_window_id] and the driver [main], followed by the properties of
    the specification that concern them. *)

From Stdlib Require Import List String Ascii Strings.Byte Bool ZArith QArith Lia.
From Stdlib Require Import Floats.SpecFloat.
Import ListNotations.

Local Open Scope string_scope.
Local Open Scope Z_scope.
Local Open Scope list_scope.

Set Warnings "-register-all".

(** ** Python values *)

(** The exceptions the script can meet.  [socket_timeout] is the
    [socket.timeout] of the [except] clause in [send_rpc]. *)
Inductive exn : Type :=
| FileNotFoundError
| ConnectionRefusedError
| ConnectionResetError
| BrokenPipeError
| socket_timeout
| AttributeError
| KeyboardInterrupt.

(** A Python call either returns a value or raises. *)
Inductive result (A : Type) : Type :=
| Returns (a : A)
| Raises (e : exn).
Arguments Returns {A} a.
Arguments Raises {A} e.

(** The values [json.loads] can produce, which are also the values the
    script builds for its requests.  A [str] is kept as a [string] (its
    UTF-8 text); a [dict] keeps its insertion order, keys unique in a
    well-formed one, and lookup takes the first binding. *)
Inductive value : Type :=
| PyNone
| PyBool (b : bool)
| PyInt (z : Z)
| PyFloat (f : spec_float)
| PyStr (s : string)
| PyList (l : list value)
| PyDict (d : list (string * value)).

Definition dict : Type := list (string * value).
Definition bytes : Type := list byte.

(** [{}] and the empty [str] *)
Definition empty_dict : value := PyDict [].
Definition empty_str : value := PyStr EmptyString.

Fixpoint lookup (k : string) (d : dict) : option value :=
  match d with
  | [] => None
  | (k', v) :: d' => if String.eqb k k' then Some v else lookup k d'
  end.

(** [d.get(k)]: the value under [k], [None] when the key is absent. *)
Definition get (d : dict) (k : string) : value :=
  match lookup k d with
  | Some v => v
  | None => PyNone
  end.

(** Truth value of an object, as [if x:], [not x] and [x or y] test it. *)
Definition truthy (v : value) : bool :=
  match v with
  | PyNone => false
  | PyBool b => b
  | PyInt z => negb (z =? 0)
  | PyFloat (S754_zero _) => false
  | PyFloat _ => true
  | PyStr EmptyString => false
  | PyStr _ => true
  | PyList [] => false
  | PyList _ => true
  | PyDict [] => false
  | PyDict _ => true
  end.

(** [a or b] *)
Definition py_or (a b : value) : value := if truthy a then a else b.

Definition is_str (v : value) : bool :=
  match v with PyStr _ => true | _ => false end.

Definition is_dict (v : value) : bool :=
  match v with PyDict _ => true | _ => false end.

(** ** Identifier extraction *)

(** [m.get("window_id") or m.get("id") or m.get("windowId") or ""],
    the expression of lines 49, 57 and 58. *)
Definition window_keys (m : dict) : value :=
  py_or (py_or (py_or (get m "window_id") (get m "id")) (get m "windowId"))
        empty_str.

(** Lines 50-59: what [first_window_id] does once the test on a list
    [result] has not returned. *)
Definition result_as_dict (res : value) : value :=
  match res with
  | PyDict rd =>
      match get rd "windows" with
      | PyList (first :: _) =>
          match first with
          | PyStr _ => first
          | PyDict fd => window_keys fd
          | _ => window_keys rd
          end
      | _ => window_keys rd
      end
  | _ => empty_str
  end.

(** [first_window_id(resp)].  [resp.get] exists on a [dict] only: any
    other object raises [AttributeError] at line 43. *)
Definition first_window_id (resp : value) : result value :=
  match resp with
  | PyDict r =>
      let res := get r "result" in
      match res with
      | PyList (first :: _) =>
          match first with
          | PyStr _ => Returns first
          | PyDict fd => Returns (window_keys fd)
          | _ => Returns (result_as_dict res)
          end
      | _ => Returns (result_as_dict res)
      end
  | _ => Raises AttributeError
  end.

(** ** The extraction, in the words of the specification *)

Definition id_keys : list string := ["window_id"; "id"; "windowId"].

(** The value of the first of [keys] that is present in [m], the empty
    string when none is. *)
Fixpoint first_present (keys : list string) (m : dict) : value :=
  match keys with
  | [] => empty_str
  | k :: keys' =>
      match lookup k m with
      | Some v => v
      | None => first_present keys' m
      end
  end.

(** The first value under [keys] that counts as true, the empty string
    when there is none. *)
Fixpoint first_truthy (keys : list string) (m : dict) : value :=
  match keys with
  | [] => empty_str
  | k :: keys' =>
      match lookup k m with
      | Some v => if truthy v then v else first_truthy keys' m
      | None => first_truthy keys' m
      end
  end.

(** ** Bytes on the wire *)

Definition newline : byte := x0a.

(** [b"\n" in buf] *)
Definition has_newline (buf : bytes) : bool := existsb (Byte.eqb newline) buf.

(** [buf.split(b"\n", 1)[0]]: the bytes before the first newline. *)
Fixpoint before_newline (buf : bytes) : bytes :=
  match buf with
  | [] => []
  | b :: tl => if Byte.eqb b newline then [] else b :: before_newline tl
  end.

(** ** The socket, seen from the client *)

(** What one call of [s.recv(65536)] does: it hands over a chunk (the
    empty chunk when the peer has closed) or raises. *)
Inductive recv_event : Type :=
| RecvChunk (chunk : bytes)
| RecvRaises (e : exn).

(** The behaviour of the other side during one connection: how
    [s.connect] and [s.sendall] end ([None]: normally) and what the
    successive calls of [s.recv] do.  Once the listed events are used up
    the peer stays silent, and [s.recv] runs into the two seconds of
    [s.settimeout(2.0)]. *)
Record connection : Type := {
  on_connect : option exn;
  on_sendall : option exn;
  on_recv : list recv_event
}.

(** [except socket.timeout] *)
Definition is_socket_timeout (e : exn) : bool :=
  match e with socket_timeout => true | _ => false end.

(** Lines 22-33: the loop that fills [buf].  The events are a list, so
    the loop is followed on every peer that sends finitely many chunks
    before it stops; on a peer that goes on sending bytes without a
    newline the [while True] of the source does not end, and such a peer
    is outside the model.  The timeout is the one of a single [s.recv]:
    the script has no deadline over the whole exchange. *)
Fixpoint read_loop (buf : bytes) (events : list recv_event) : result bytes :=
  match events with
  | [] => Returns buf
  | RecvRaises e :: _ =>
      if is_socket_timeout e then Returns buf else Raises e
  | RecvChunk chunk :: events' =>
      match chunk with
      | [] => Returns buf
      | _ :: _ =>
          let buf := buf ++ chunk in
          if has_newline buf then Returns (before_newline buf)
          else read_loop buf events'
      end
  end.

(** The calls of [s.recv] that hand over the chunks [cs]. *)
Definition chunks (cs : list bytes) : list recv_event := map RecvChunk cs.

(** No call of [s.recv] raises anything but the timeout. *)
Definition quiet (events : list recv_event) : Prop :=
  forall e, In (RecvRaises e) events -> e = socket_timeout.

(** ** What the program does to the outside *)

(** The script's constants, lines 8-13, with the values they ship
    with; [0.3] is kept as the fraction it is written as. *)
Record config : Type := {
  SOCK : string;
  COUNT : Z;
  SLEEP_SECS : Q;
  PATH_ARG : string;
  DO_CREATE : bool;
  DO_ACTIVATE : bool
}.

Definition default_config : config := {|
  SOCK := "/tmp/neovide.sock";
  COUNT := 10;
  SLEEP_SECS := 3 # 10;
  PATH_ARG := ".";
  DO_CREATE := true;
  DO_ACTIVATE := true
|}.

(** The calls that reach the outside, in the order they are made.
    [EvSendall payload] stands for [s.sendall] of [json.dumps(payload)]
    and a newline, [EvElapsed label] for the line [<label>: <elapsed>ms]
    of [bench] (the elapsed time itself is not part of the model), the
    other [EvPrint...] for the [print] of the same text. *)
Inductive event : Type :=
| EvConnect (path : string)
| EvSendall (payload : value)
| EvClose
| EvPrintSocket (path : string)
| EvPrintConfig (count : Z) (sleep : Q) (create activate : bool)
| EvPrintIteration (i : Z)
| EvElapsed (label : string)
| EvPrintSkipped
| EvSleep (secs : Q).

(** The connections opened so far and the calls made so far. *)
Record state : Type := {
  calls : nat;
  trace : list event
}.

Definition initial : state := {| calls := 0%nat; trace := [] |}.

Definition log (ev : event) (st : state) : state :=
  {| calls := calls st; trace := trace st ++ [ev] |}.

(** A computation of the script: it runs from a state and returns or
    raises, leaving a state. *)
Definition M (A : Type) : Type := state -> result A * state.

Definition ret {A} (a : A) : M A := fun st => (Returns a, st).

Definition bind {A B} (m : M A) (k : A -> M B) : M B :=
  fun st =>
    match m st with
    | (Returns a, st') => k a st'
    | (Raises e, st') => (Raises e, st')
    end.

Definition lift {A} (r : result A) : M A := fun st => (r, st).

Definition emit (ev : event) : M unit := fun st => (Returns tt, log ev st).

Notation "x <- m ;; k" := (bind m (fun x => k))
  (at level 61, m at next level, right associativity).
Notation "m ;; k" := (bind m (fun _ => k))
  (at level 61, right associativity).

(** ** A decoder for examples

    [send_rpc] is stated below for any decoder.  To run it on actual
    bytes, [loads_lite] reads the part of JSON made of [null], [true],
    [false], integers, strings of printable ASCII with the one-letter
    escapes, arrays and objects, with the white space and the delimiters
    of [json.loads]; a text outside that part (a fraction, an exponent,
    a [\u] escape, a byte above 127) is refused. *)

Definition is_space (b : byte) : bool :=
  match b with
  | x20 | x09 | x0a | x0d => true
  | _ => false
  end.

Fixpoint skip_space (s : bytes) : bytes :=
  match s with
  | b :: tl => if is_space b then skip_space tl else s
  | [] => []
  end.

Definition digit (b : byte) : option Z :=
  let n := Z.of_N (Byte.to_N b) in
  if (48 <=? n) && (n <=? 57) then Some (n - 48) else None.

Fixpoint scan_digits (acc : Z) (s : bytes) : Z * bytes :=
  match s with
  | b :: tl =>
      match digit b with
      | Some d => scan_digits (10 * acc + d) tl
      | None => (acc, s)
      end
  | [] => (acc, [])
  end.

(** [0] or a digit from 1 to 9 followed by digits, not continued as a
    float. *)
Definition scan_int (s : bytes) : option (Z * bytes) :=
  match s with
  | b :: tl =>
      match digit b with
      | Some d =>
          let '(n, rest) := if d =? 0 then (0, tl) else scan_digits d tl in
          match rest with
          | ("." | "e" | "E")%byte :: _ => None
          | _ => Some (n, rest)
          end
      | None => None
      end
  | [] => None
  end.

Definition unescape (b : byte) : option ascii :=
  match b with
  | x22 => Some (ascii_of_byte x22)
  | x5c => Some (ascii_of_byte x5c)
  | "/"%byte => Some "/"%char
  | "b"%byte => Some (ascii_of_byte x08)
  | "f"%byte => Some (ascii_of_byte x0c)
  | "n"%byte => Some (ascii_of_byte x0a)
  | "r"%byte => Some (ascii_of_byte x0d)
  | "t"%byte => Some (ascii_of_byte x09)
  | _ => None
  end.

(** The characters of a string after its opening quote, up to the
    closing one. *)
Fixpoint scan_string (s : bytes) : option (string * bytes) :=
  match s with
  | [] => None
  | b :: tl =>
      if Byte.eqb b x22 then Some (EmptyString, tl)
      else if Byte.eqb b x5c then
        match tl with
        | e :: tl' =>
            match unescape e, scan_string tl' with
            | Some c, Some (str, rest) => Some (String c str, rest)
            | _, _ => None
            end
        | [] => None
        end
      else
        let n := Z.of_N (Byte.to_N b) in
        if (32 <=? n) && (n <=? 127) then
          match scan_string tl with
          | Some (str, rest) => Some (String (ascii_of_byte b) str, rest)
          | None => None
          end
        else None
  end.

(** [d[k] = v] *)
Fixpoint dict_set (d : dict) (k : string) (v : value) : dict :=
  match d with
  | [] => [(k, v)]
  | (k', v') :: d' =>
      if String.eqb k k' then (k', v) :: d' else (k', v') :: dict_set d' k v
  end.

Definition dict_of_pairs (kvs : list (string * value)) : dict :=
  fold_left (fun d kv => dict_set d (fst kv) (snd kv)) kvs [].

Fixpoint scan_value (fuel : nat) (s : bytes) : option (value * bytes) :=
  match fuel with
  | O => None
  | S fuel' =>
      match skip_space s with
      | ("n" :: "u" :: "l" :: "l" :: tl)%byte => Some (PyNone, tl)
      | ("t" :: "r" :: "u" :: "e" :: tl)%byte => Some (PyBool true, tl)
      | ("f" :: "a" :: "l" :: "s" :: "e" :: tl)%byte => Some (PyBool false, tl)
      | x22 :: tl =>
          match scan_string tl with
          | Some (str, rest) => Some (PyStr str, rest)
          | None => None
          end
      | "["%byte :: tl =>
          match skip_space tl with
          | "]"%byte :: rest => Some (PyList [], rest)
          | _ =>
              match scan_items fuel' tl with
              | Some (vs, rest) => Some (PyList vs, rest)
              | None => None
              end
          end
      | "{"%byte :: tl =>
          match skip_space tl with
          | "}"%byte :: rest => Some (PyDict [], rest)
          | _ =>
              match scan_members fuel' tl with
              | Some (kvs, rest) => Some (PyDict (dict_of_pairs kvs), rest)
              | None => None
              end
          end
      | "-"%byte :: tl =>
          match scan_int tl with
          | Some (n, rest) => Some (PyInt (- n), rest)
          | None => None
          end
      | s' =>
          match scan_int s' with
          | Some (n, rest) => Some (PyInt n, rest)
          | None => None
          end
      end
  end

with scan_items (fuel : nat) (s : bytes) : option (list value * bytes) :=
  match fuel with
  | O => None
  | S fuel' =>
      match scan_value fuel' s with
      | Some (v, rest) =>
          match skip_space rest with
          | "]"%byte :: rest' => Some ([v], rest')
          | ","%byte :: rest' =>
              match scan_items fuel' rest' with
              | Some (vs, rest'') => Some (v :: vs, rest'')
              | None => None
              end
          | _ => None
          end
      | None => None
      end
  end

with scan_members (fuel : nat) (s : bytes)
  : option (list (string * value) * bytes) :=
  match fuel with
  | O => None
  | S fuel' =>
      match skip_space s with
      | x22 :: tl =>
          match scan_string tl with
          | Some (k, rest) =>
              match skip_space rest with
              | ":"%byte :: rest' =>
                  match scan_value fuel' rest' with
                  | Some (v, rest'') =>
                      match skip_space rest'' with
                      | "}"%byte :: rest3 => Some ([(k, v)], rest3)
                      | ","%byte :: rest3 =>
                          match scan_members fuel' rest3 with
                          | Some (kvs, rest4) => Some ((k, v) :: kvs, rest4)
                          | None => None
                          end
                      | _ => None
                      end
                  | None => None
                  end
              | _ => None
              end
          | None => None
          end
      | _ => None
      end
  end.

(** [None] stands for the exception of [buf.decode] or [json.loads]. *)
Definition loads_lite (buf : bytes) : option value :=
  match scan_value (2 * List.length buf + 2) buf with
  | Some (v, rest) =>
      match skip_space rest with
      | [] => Some v
      | _ :: _ => None
      end
  | None => None
  end.

(** Example texts are written with ['] where the bytes have the double
    quote. *)
Definition text (s : string) : bytes :=
  map (fun b => if Byte.eqb b "'"%byte then x22 else b) (list_byte_of_string s).

(** The same with the closing newline of a framed reply. *)
Definition line (s : string) : bytes := text s ++ [newline].

(** Peers for the examples: one that answers [reply] in a single chunk,
    one that accepts the request and never answers, one where
    [s.connect] raises [e], one that stops reading so that [s.sendall]
    runs into the timeout, one that sends [sent] and resets the
    connection. *)
Definition answers (reply : bytes) : connection :=
  {| on_connect := None; on_sendall := None; on_recv := [RecvChunk reply] |}.

Definition silent : connection :=
  {| on_connect := None; on_sendall := None; on_recv := [] |}.

Definition unreachable (e : exn) : connection :=
  {| on_connect := Some e; on_sendall := None; on_recv := [] |}.

Definition stalled : connection :=
  {| on_connect := None; on_sendall := Some socket_timeout; on_recv := [] |}.


(** ** The script *)

Section Script.

(** [json.loads(buf.decode("utf-8"))] is the library's: [None] when the
    two calls raise, which [except Exception] catches whatever the
    exception.  [peer n] is how the other side behaves on the
    connection number [n] of the run, and [cfg] holds the constants. *)
Variable json_loads : bytes -> option value.
Variable peer : nat -> connection.
Variable cfg : config.

(** Lines 34-39 of [send_rpc]. *)
Definition decode_reply (buf : bytes) : value :=
  match buf with
  | [] => empty_dict
  | _ :: _ =>
      match json_loads buf with
      | Some v => v
      | None => empty_dict
      end
  end.

(** [send_rpc(payload)].  The [with] block closes the socket on every
    way out; [s.connect] and [s.sendall] stand outside the [try] of
    the loop. *)
Definition send_rpc (payload : value) : M value :=
  fun st =>
    let c := peer (calls st) in
    let st := {| calls := S (calls st);
                 trace := trace st ++ [EvConnect (SOCK cfg)] |} in
    match on_connect c with
    | Some e => (Raises e, log EvClose st)
    | None =>
        let st := log (EvSendall payload) st in
        match on_sendall c with
        | Some e => (Raises e, log EvClose st)
        | None =>
            match read_loop [] (on_recv c) with
            | Raises e => (Raises e, log EvClose st)
            | Returns buf => (Returns (decode_reply buf), log EvClose st)
            end
        end
    end.

(** [bench(label, payload)] *)
Definition bench (label : string) (payload : value) : M value :=
  resp <- send_rpc payload ;;
  emit (EvElapsed label) ;;
  ret resp.

(** The three requests of an iteration, lines 77, 84-89 and 98-103. *)
Definition list_request : value :=
  PyDict [("jsonrpc", PyStr "2.0"); ("id", PyInt 1);
          ("method", PyStr "ListWindows")].

Definition create_request : value :=
  PyDict [("jsonrpc", PyStr "2.0"); ("id", PyInt 2);
          ("method", PyStr "CreateWindow");
          ("params", PyDict [("nvim_args", PyList [PyStr (PATH_ARG cfg)])])].

Definition activate_request (target_id : value) : value :=
  PyDict [("jsonrpc", PyStr "2.0"); ("id", PyInt 3);
          ("method", PyStr "ActivateWindow");
          ("params", PyDict [("window_id", target_id)])].

(** Lines 80-91 *)
Definition create : M value :=
  if DO_CREATE cfg then
    create_resp <- bench "CreateWindow" create_request ;;
    lift (first_window_id create_resp)
  else ret empty_str.

(** Lines 93-106 *)
Definition activate (list_id create_id : value) : M unit :=
  if DO_ACTIVATE cfg then
    let target_id := py_or list_id create_id in
    if truthy target_id then
      bench "ActivateWindow" (activate_request target_id) ;;
      ret tt
    else emit EvPrintSkipped
  else ret tt.

(** The body of the loop of [main], lines 75-108.  [time.sleep] raises
    on a negative argument: the model follows the script for a
    [SLEEP_SECS] that is not negative, as the shipped 0.3 is. *)
Definition iteration (i : Z) : M unit :=
  emit (EvPrintIteration i) ;;
  list_resp <- bench "ListWindows" list_request ;;
  list_id <- lift (first_window_id list_resp) ;;
  create_id <- create ;;
  activate list_id create_id ;;
  emit (EvSleep (SLEEP_SECS cfg)).

(** [for i in range(first, first + n)] *)
Fixpoint for_range (first : Z) (n : nat) (body : Z -> M unit) : M unit :=
  match n with
  | O => ret tt
  | S n' => body first ;; for_range (first + 1) n' body
  end.

(** [main()] *)
Definition main : M unit :=
  emit (EvPrintSocket (SOCK cfg)) ;;
  emit (EvPrintConfig (COUNT cfg) (SLEEP_SECS cfg)
                      (DO_CREATE cfg) (DO_ACTIVATE cfg)) ;;
  for_range 1 (Z.to_nat (COUNT cfg)) iteration.

(** Lines 111-115: the exit status of the process, 130 after
    [KeyboardInterrupt], 1 when another exception leaves [main]. *)
Definition script : Z * list event :=
  match main initial with
  | (Returns _, st) => (0, trace st)
  | (Raises KeyboardInterrupt, st) => (130, trace st)
  | (Raises _, st) => (1, trace st)
  end.

(** ** Reading a run *)

(** The socket calls of a trace are in order when [s.connect] comes with
    no socket open, [s.sendall] and the closing on the open socket, and
    the prints and the sleep with no socket open.  [socket_after]
    follows a trace from a socket open or not and tells whether one is
    open at the end, [None] when a call is out of order. *)
Fixpoint socket_after (open : bool) (t : list event) : option bool :=
  match t with
  | [] => Some open
  | EvConnect _ :: t' => if open then None else socket_after true t'
  | EvSendall _ :: t' => if open then socket_after true t' else None
  | EvClose :: t' => if open then socket_after false t' else None
  | _ :: t' => if open then None else socket_after false t'
  end.

(** The lines [--- Iteration i ---] of a trace, by their numbers. *)
Fixpoint iterations_of (t : list event) : list Z :=
  match t with
  | [] => []
  | EvPrintIteration i :: t' => i :: iterations_of t'
  | _ :: t' => iterations_of t'
  end.

(** [first], [first + 1], ... ([n] numbers) *)
Fixpoint numbers (first : Z) (n : nat) : list Z :=
  match n with
  | O => []
  | S n' => first :: numbers (first + 1) n'
  end.

(** [m] only adds to the trace, and what it adds satisfies [P]. *)
Definition adds {A} (m : M A) (P : list event -> Prop) : Prop :=
  forall st, exists out, trace (snd (m st)) = trace st ++ out /\ P out.

(** [m] opens at most [n] connections. *)
Definition opens_at_most {A} (m : M A) (n : nat) : Prop :=
  forall st, (calls (snd (m st)) <= calls st + n)%nat.

(** What a run may do, given the constants. *)
Definition allowed (ev : event) : Prop :=
  match ev with
  | EvConnect path => path = SOCK cfg
  | EvSendall payload =>
      payload = list_request
      \/ (DO_CREATE cfg = true /\ payload = create_request)
      \/ (DO_ACTIVATE cfg = true
          /\ exists target,
               truthy target = true /\ payload = activate_request target)
  | EvElapsed label =>
      label = "ListWindows"
      \/ (DO_CREATE cfg = true /\ label = "CreateWindow")
      \/ (DO_ACTIVATE cfg = true /\ label = "ActivateWindow")
  | EvPrintSkipped => DO_ACTIVATE cfg = true
  | EvSleep secs => secs = SLEEP_SECS cfg
  | _ => True
  end.

(** The connection number [k] opens, takes the request and lets the
    read loop end. *)
Definition healthy (k : nat) : Prop :=
  on_connect (peer k) = None
  /\ on_sendall (peer k) = None
  /\ exists buf, read_loop [] (on_recv (peer k)) = Returns buf.


(** What a stretch of a run looks like: allowed events, socket calls in
    order, no socket left open. *)
Definition orderly (out : list event) : Prop :=
  Forall allowed out /\ socket_after false out = Some false.

(** A stretch without a line [--- Iteration i ---]. *)
Definition headerless (out : list event) : Prop := iterations_of out = [].

(** Every connection opened so far was healthy, and [m] keeps it so
    when it returns. *)
Definition all_healthy (st : state) : Prop :=
  forall k, (k < calls st)%nat -> healthy k.

Definition sound {A} (m : M A) : Prop :=
  forall st a st',
    all_healthy st -> m st = (Returns a, st') -> all_healthy st'.


(** The shipped constants with another [COUNT]. *)
Definition with_count (n : Z) : config :=
  {| SOCK := SOCK default_config;
     COUNT := n;
     SLEEP_SECS := SLEEP_SECS default_config;
     PATH_ARG := PATH_ARG default_config;
     DO_CREATE := DO_CREATE default_config;
     DO_ACTIVATE := DO_ACTIVATE default_config |}.

(** ** Properties of the extraction *)

Lemma truthy_str (s : string) : truthy (PyStr s) = true <-> s <> EmptyString.
Proof.
  destruct s; simpl; split; intro H; try discriminate; try reflexivity.
  now elim H.
Qed.

Lemma py_or_truthy (a b : value) : truthy a = true -> py_or a b = a.
Proof. unfold py_or. now intros ->. Qed.

Lemma py_or_falsy (a b : value) : truthy a = false -> py_or a b = b.
Proof. unfold py_or. now intros ->. Qed.

Lemma get_absent (m : dict) (k : string) : lookup k m = None -> get m k = PyNone.
Proof. unfold get. now intros ->. Qed.

Lemma get_present (m : dict) (k : string) (v : value) :
  lookup k m = Some v -> get m k = v.
Proof. unfold get. now intros ->. Qed.

(** The [or] chain of the source picks the first value that counts as
    true. *)
Lemma window_keys_first_truthy (m : dict) :
  window_keys m = first_truthy id_keys m.
Proof.
  unfold window_keys, id_keys, first_truthy, get.
  destruct (lookup "window_id" m) as [a|];
    destruct (lookup "id" m) as [b|];
    destruct (lookup "windowId" m) as [c|];
    unfold py_or; simpl;
    repeat first
      [ progress simpl
      | match goal with
        | H : truthy ?v = _ |- context [truthy ?v] => rewrite H
        | |- context [truthy ?v] => is_var v; destruct (truthy v) eqn:?
        end ];
    reflexivity.
Qed.


(** On anything else it raises. *)
Lemma first_window_id_not_dict (v : value) :
  is_dict v = false -> first_window_id v = Raises AttributeError.
Proof. destruct v; simpl; intros; congruence. Qed.

(** C3, as amended.  When [result] is a non-empty list whose first
    element is a mapping, [first_window_id] returns the first value that
    counts as true among the keys [window_id], [id], [windowId], in that
    order: a true [window_id] wins over [id], a true [id] over
    [windowId], and the empty string comes back when no key holds a true
    value, in particular when none of the three is present. *)
Theorem C3_first_true_key (r first : dict) (rest : list value) :
  lookup "result" r = Some (PyList (PyDict first :: rest)) ->
  first_window_id (PyDict r) = Returns (first_truthy id_keys first)
  /\ (truthy (get first "window_id") = true ->
      first_window_id (PyDict r) = Returns (get first "window_id"))
  /\ (truthy (get first "window_id") = false ->
      truthy (get first "id") = true ->
      first_window_id (PyDict r) = Returns (get first "id"))
  /\ (truthy (get first "window_id") = false ->
      truthy (get first "id") = false ->
      truthy (get first "windowId") = true ->
      first_window_id (PyDict r) = Returns (get first "windowId"))
  /\ (truthy (get first "window_id") = false ->
      truthy (get first "id") = false ->
      truthy (get first "windowId") = false ->
      first_window_id (PyDict r) = Returns empty_str)
  /\ (lookup "window_id" first = None ->
      lookup "id" first = None ->
      lookup "windowId" first = None ->
      first_window_id (PyDict r) = Returns empty_str).
Proof.
  intros Hres.
  assert (E : first_window_id (PyDict r) = Returns (window_keys first)).
  { unfold first_window_id. now rewrite (get_present _ _ _ Hres). }
  rewrite E. repeat split.
  - now rewrite window_keys_first_truthy.
  - intros Ha. unfold window_keys. now rewrite !(py_or_truthy _ _ Ha).
  - intros Ha Hb. unfold window_keys.
    now rewrite (py_or_falsy _ _ Ha), !(py_or_truthy _ _ Hb).
  - intros Ha Hb Hc. unfold window_keys.
    now rewrite (py_or_falsy _ _ Ha), (py_or_falsy _ _ Hb),
      (py_or_truthy _ _ Hc).
  - intros Ha Hb Hc. unfold window_keys.
    now rewrite (py_or_falsy _ _ Ha), (py_or_falsy _ _ Hb), (py_or_falsy _ _ Hc).
  - intros Ha Hb Hc. unfold window_keys.
    now rewrite (get_absent _ _ Ha), (get_absent _ _ Hb), (get_absent _ _ Hc).
Qed.

(** C9.  A response whose [result] is a list that starts with a string
    gives that string as it is, whatever follows it in the list and
    whatever else the response holds: [{"result": ["W1", "W2"]}] gives
    ["W1"].  A response [{"result": [{"id": w}]}] gives [w], and so does
    any whose first element is a mapping with a non-empty string [w]
    under [id] and no true [window_id]: [{"result": [{"id": "W9"}]}]
    gives ["W9"].  When [result] is a mapping whose [windows] is a
    non-empty list, its first element is read by the same rule: a
    string is returned as it is, [{"result": {"windows": [{"windowId":
    w}]}}] gives [w], and so does any first window with a non-empty
    string [w] under [windowId] and no true [window_id] or [id]:
    [{"result": {"windows": [{"windowId": "W3"}]}}] gives ["W3"]. *)
Theorem C9_documented_shapes :
  (forall (r : dict) (s : string) (rest : list value),
      lookup "result" r = Some (PyList (PyStr s :: rest)) ->
      first_window_id (PyDict r) = Returns (PyStr s))
  /\ (forall w : string,
        first_window_id
          (PyDict [("result", PyList [PyDict [("id", PyStr w)]])])
        = Returns (PyStr w))
  /\ (forall (r first : dict) (rest : list value) (w : string),
        lookup "result" r = Some (PyList (PyDict first :: rest)) ->
        truthy (get first "window_id") = false ->
        lookup "id" first = Some (PyStr w) ->
        w <> EmptyString ->
        first_window_id (PyDict r) = Returns (PyStr w))
  /\ (forall (r rd : dict) (s : string) (rest : list value),
        lookup "result" r = Some (PyDict rd) ->
        lookup "windows" rd = Some (PyList (PyStr s :: rest)) ->
        first_window_id (PyDict r) = Returns (PyStr s))
  /\ (forall w : string,
        first_window_id
          (PyDict [("result",
                    PyDict [("windows",
                             PyList [PyDict [("windowId", PyStr w)]])])])
        = Returns (PyStr w))
  /\ (forall (r rd first : dict) (rest : list value) (w : string),
        lookup "result" r = Some (PyDict rd) ->
        lookup "windows" rd = Some (PyList (PyDict first :: rest)) ->
        truthy (get first "window_id") = false ->
        truthy (get first "id") = false ->
        lookup "windowId" first = Some (PyStr w) ->
        w <> EmptyString ->
        first_window_id (PyDict r) = Returns (PyStr w))
  /\ first_window_id (PyDict [("result", PyList [PyStr "W1"; PyStr "W2"])])
     = Returns (PyStr "W1")
  /\ first_window_id (PyDict [("result", PyList [PyDict [("id", PyStr "W9")]])])
     = Returns (PyStr "W9")
  /\ first_window_id
       (PyDict [("result",
                 PyDict [("windows",
                          PyList [PyDict [("windowId", PyStr "W3")]])])])
     = Returns (PyStr "W3").
Proof.
  split; [|split; [|split; [|split; [|split; [|split]]]]].
  - intros r s rest Hres. unfold first_window_id.
    now rewrite (get_present _ _ _ Hres).
  - intros w. now destruct w.
  - intros r first rest w Hres Ha Hid Hw.
    unfold first_window_id. rewrite (get_present _ _ _ Hres).
    unfold window_keys. rewrite (py_or_falsy _ _ Ha).
    rewrite (get_present _ _ _ Hid).
    assert (Ht : truthy (PyStr w) = true) by now apply truthy_str.
    now rewrite !(py_or_truthy _ _ Ht).
  - intros r rd s rest Hres Hwin. unfold first_window_id.
    rewrite (get_present _ _ _ Hres). unfold result_as_dict.
    now rewrite (get_present _ _ _ Hwin).
  - intros w. now destruct w.
  - intros r rd first rest w Hres Hwin Ha Hb Hid Hw.
    unfold first_window_id. rewrite (get_present _ _ _ Hres).
    unfold result_as_dict. rewrite (get_present _ _ _ Hwin).
    unfold window_keys.
    rewrite (py_or_falsy _ _ Ha), (py_or_falsy _ _ Hb).
    rewrite (get_present _ _ _ Hid).
    assert (Ht : truthy (PyStr w) = true) by now apply truthy_str.
    now rewrite (py_or_truthy _ _ Ht).
  - repeat split.
Qed.

(** C10.  When [result] is a mapping whose [windows] is a non-empty
    list with a first element that is neither a string nor a mapping,
    [first_window_id] goes on to the keys of [result] itself and returns
    the first value that counts as true among [window_id], [id],
    [windowId] there. *)
Theorem C10_windows_fall_through
  (r rd : dict) (first : value) (rest : list value) :
  lookup "result" r = Some (PyDict rd) ->
  lookup "windows" rd = Some (PyList (first :: rest)) ->
  is_str first = false ->
  is_dict first = false ->
  first_window_id (PyDict r) = Returns (first_truthy id_keys rd).
Proof.
  intros Hres Hwin Hs Hd.
  unfold first_window_id. rewrite (get_present _ _ _ Hres).
  unfold result_as_dict. rewrite (get_present _ _ _ Hwin).
  rewrite <- window_keys_first_truthy.
  destruct first; simpl in Hs, Hd; congruence.
Qed.

(** ** Properties of the read loop *)



Lemma before_newline_clean (buf : bytes) :
  has_newline (before_newline buf) = false.
Proof.
  induction buf as [|b tl IH]; simpl; [reflexivity|].
  destruct (Byte.eqb b newline) eqn:Eb; simpl; [reflexivity|].
  rewrite IH, orb_false_r.
  destruct (Byte.eqb newline b) eqn:E'; [|reflexivity].
  apply Byte.byte_dec_bl in E'. subst b. discriminate.
Qed.


(** The loop returns when no call of [s.recv] raises anything but the
    timeout. *)
Lemma read_loop_quiet (events : list recv_event) :
  forall acc, quiet events -> exists buf, read_loop acc events = Returns buf.
Proof.
  induction events as [|ev events IH]; intros acc Hq; simpl; eauto.
  destruct ev as [[|b c]|e]; eauto.
  - destruct (has_newline (acc ++ b :: c)); eauto.
    apply IH. intros e He. apply Hq. now right.
  - rewrite (Hq e (or_introl eq_refl)). simpl. eauto.
Qed.

(** ** Properties of the exchange *)

(** The state a complete exchange leaves: one more connection, and the
    three calls on the socket. *)
Lemma send_rpc_reply (payload : value) (st : state) (buf : bytes) :
  on_connect (peer (calls st)) = None ->
  on_sendall (peer (calls st)) = None ->
  read_loop [] (on_recv (peer (calls st))) = Returns buf ->
  send_rpc payload st
  = (Returns (decode_reply buf),
     {| calls := S (calls st);
        trace := trace st
                 ++ [EvConnect (SOCK cfg); EvSendall payload; EvClose] |}).
Proof.
  intros Hc Hs Hr. unfold send_rpc. rewrite Hc, Hs, Hr.
  unfold log. simpl. now rewrite <- !app_assoc.
Qed.

(** [s.connect] is outside any handler. *)
Lemma send_rpc_connect_raises (payload : value) (st : state) (e : exn) :
  on_connect (peer (calls st)) = Some e ->
  send_rpc payload st
  = (Raises e,
     {| calls := S (calls st);
        trace := trace st ++ [EvConnect (SOCK cfg); EvClose] |}).
Proof.
  intros Hc. unfold send_rpc. rewrite Hc.
  unfold log. simpl. now rewrite <- !app_assoc.
Qed.

(** So is [s.sendall]. *)
Lemma send_rpc_sendall_raises (payload : value) (st : state) (e : exn) :
  on_connect (peer (calls st)) = None ->
  on_sendall (peer (calls st)) = Some e ->
  send_rpc payload st
  = (Raises e,
     {| calls := S (calls st);
        trace := trace st
                 ++ [EvConnect (SOCK cfg); EvSendall payload; EvClose] |}).
Proof.
  intros Hc Hs. unfold send_rpc. rewrite Hc, Hs.
  unfold log. simpl. now rewrite <- !app_assoc.
Qed.

(** Once connected and the request written, [send_rpc] returns whatever
    bytes arrive. *)
Lemma send_rpc_returns (payload : value) (st : state) :
  on_connect (peer (calls st)) = None ->
  on_sendall (peer (calls st)) = None ->
  quiet (on_recv (peer (calls st))) ->
  exists buf,
    read_loop [] (on_recv (peer (calls st))) = Returns buf
    /\ fst (send_rpc payload st) = Returns (decode_reply buf).
Proof.
  intros Hc Hs Hq. destruct (read_loop_quiet _ [] Hq) as [buf Hr].
  exists buf. split; [assumption|].
  now rewrite (send_rpc_reply payload st buf Hc Hs Hr).
Qed.

(** A reply that decodes is handed over as it is, [dict] or not. *)
Lemma send_rpc_hands_over (payload : value) (st : state) (buf : bytes)
  (v : value) :
  on_connect (peer (calls st)) = None ->
  on_sendall (peer (calls st)) = None ->
  read_loop [] (on_recv (peer (calls st))) = Returns buf ->
  buf <> [] ->
  json_loads buf = Some v ->
  fst (send_rpc payload st) = Returns v.
Proof.
  intros Hc Hs Hr Hne Hl.
  rewrite (send_rpc_reply payload st buf Hc Hs Hr). simpl.
  unfold decode_reply. rewrite Hl. now destruct buf.
Qed.

(** And the extraction raises on it when it is not a [dict]. *)
Lemma non_object_reply_raises (payload : value) (st : state) (buf : bytes)
  (v : value) :
  on_connect (peer (calls st)) = None ->
  on_sendall (peer (calls st)) = None ->
  read_loop [] (on_recv (peer (calls st))) = Returns buf ->
  buf <> [] ->
  json_loads buf = Some v ->
  is_dict v = false ->
  fst ((resp <- send_rpc payload ;; lift (first_window_id resp)) st)
  = Raises AttributeError.
Proof.
  intros Hc Hs Hr Hne Hl Hd. unfold bind.
  rewrite (send_rpc_reply payload st buf Hc Hs Hr).
  unfold decode_reply. rewrite Hl.
  destruct buf; [now elim Hne|]. simpl.
  now apply first_window_id_not_dict.
Qed.



(** C4.  [first_window_id] returns the empty string on [{}], on
    [{"result": []}] and on [{"result": {}}], and [send_rpc] returns
    [{}] when the bytes received cannot be decoded. *)
Theorem C4_empty_and_undecodable :
  first_window_id (PyDict []) = Returns empty_str
  /\ first_window_id (PyDict [("result", PyList [])]) = Returns empty_str
  /\ first_window_id (PyDict [("result", PyDict [])]) = Returns empty_str
  /\ (forall payload st buf,
        on_connect (peer (calls st)) = None ->
        on_sendall (peer (calls st)) = None ->
        read_loop [] (on_recv (peer (calls st))) = Returns buf ->
        json_loads buf = None ->
        fst (send_rpc payload st) = Returns empty_dict).
Proof.
  repeat split.
  intros payload st buf Hc Hs Hr Hl.
  rewrite (send_rpc_reply payload st buf Hc Hs Hr). simpl.
  unfold decode_reply. rewrite Hl. now destruct buf.
Qed.

(** ** Properties of the driver *)

Lemma bench_returns (label : string) (payload resp : value) (st st' : state) :
  send_rpc payload st = (Returns resp, st') ->
  bench label payload st = (Returns resp, log (EvElapsed label) st').
Proof. intros H. unfold bench, bind, emit, ret. now rewrite H. Qed.

Lemma bench_raises (label : string) (payload : value) (e : exn)
  (st st' : state) :
  send_rpc payload st = (Raises e, st') ->
  bench label payload st = (Raises e, st').
Proof. intros H. unfold bench, bind. now rewrite H. Qed.

(** An iteration whose first two steps went through continues with the
    activation on the two identifiers. *)
Lemma iteration_reaches_activate (i : Z) (st st1 st2 : state)
  (list_resp list_id create_id : value) :
  bench "ListWindows" list_request (log (EvPrintIteration i) st)
  = (Returns list_resp, st1) ->
  first_window_id list_resp = Returns list_id ->
  create st1 = (Returns create_id, st2) ->
  iteration i st
  = (activate list_id create_id ;; emit (EvSleep (SLEEP_SECS cfg))) st2.
Proof.
  intros Hl Hid Hc. unfold iteration.
  unfold bind at 1. unfold emit at 1.
  unfold bind at 1. rewrite Hl.
  unfold bind at 1. unfold lift at 1. rewrite Hid.
  unfold bind at 1. now rewrite Hc.
Qed.

(** C7.  In an iteration with [DO_ACTIVATE] set, once the two
    identifiers [list_id] and [create_id] are there, the target is
    [list_id] when it is not empty and [create_id] otherwise.  With an
    empty target the iteration opens no connection, prints the line
    about the skipped activation and goes on to sleep.  With any other
    target it sends the request [ActivateWindow] with [id] 3 and
    [params] [{"window_id": target}], and prints the elapsed time under
    the label [ActivateWindow] when the exchange returns. *)
Theorem C7_activation_step (i : Z) (st st1 st2 : state)
  (list_resp list_id create_id : value) :
  DO_ACTIVATE cfg = true ->
  bench "ListWindows" list_request (log (EvPrintIteration i) st)
  = (Returns list_resp, st1) ->
  first_window_id list_resp = Returns list_id ->
  create st1 = (Returns create_id, st2) ->
  let target := if truthy list_id then list_id else create_id in
  let request :=
    PyDict [("jsonrpc", PyStr "2.0"); ("id", PyInt 3);
            ("method", PyStr "ActivateWindow");
            ("params", PyDict [("window_id", target)])] in
  (truthy target = false ->
     iteration i st
     = (Returns tt,
        {| calls := calls st2;
           trace := trace st2
                    ++ [EvPrintSkipped; EvSleep (SLEEP_SECS cfg)] |}))
  /\ (truthy target = true ->
      forall resp st3,
        send_rpc request st2 = (Returns resp, st3) ->
        iteration i st
        = (Returns tt,
           {| calls := calls st3;
              trace := trace st3 ++ [EvElapsed "ActivateWindow";
                                     EvSleep (SLEEP_SECS cfg)] |}))
  /\ (truthy target = true ->
      forall e st3,
        send_rpc request st2 = (Raises e, st3) ->
        iteration i st = (Raises e, st3))
  /\ (truthy target = true ->
      on_connect (peer (calls st2)) = None ->
      exists more,
        trace (snd (iteration i st))
        = trace st2 ++ EvConnect (SOCK cfg) :: EvSendall request :: more).
Proof.
  intros Hact Hl Hid Hc target request.
  rewrite (iteration_reaches_activate i st st1 st2 _ _ _ Hl Hid Hc).
  unfold activate. rewrite Hact.
  change (py_or list_id create_id) with target.
  change (activate_request target) with request.
  split; [|split; [|split]].
  - intros Ht. rewrite Ht. unfold bind, emit, log. simpl.
    now rewrite <- app_assoc.
  - intros Ht resp st3 Hs. rewrite Ht.
    unfold bind at 1. unfold bind at 1.
    rewrite (bench_returns _ _ _ _ _ Hs).
    unfold ret, emit, log. simpl. now rewrite <- app_assoc.
  - intros Ht e st3 Hs. rewrite Ht.
    unfold bind at 1. unfold bind at 1.
    now rewrite (bench_raises _ _ _ _ _ Hs).
  - intros Ht Hconn. rewrite Ht.
    unfold bind at 1. unfold bind at 1. unfold bench. unfold bind at 1.
    unfold send_rpc. rewrite Hconn.
    destruct (on_sendall (peer (calls st2))) as [e|].
    + eexists. unfold log. simpl. rewrite <- !app_assoc. reflexivity.
    + destruct (read_loop [] (on_recv (peer (calls st2)))) as [buf|e].
      * eexists. unfold bind, emit, ret, log. simpl.
        rewrite <- !app_assoc. reflexivity.
      * eexists. unfold log. simpl. rewrite <- !app_assoc. reflexivity.
Qed.

(** A body that raises ends the loop. *)
Lemma for_range_raises (first : Z) (n : nat) (body : Z -> M unit)
  (e : exn) (st st' : state) :
  body first st = (Raises e, st') ->
  for_range first (S n) body st = (Raises e, st').
Proof. intros H. simpl. unfold bind. now rewrite H. Qed.

(** A connection that cannot be opened surfaces from [bench]: nothing
    catches it, and no second attempt is made. *)
Lemma bench_connect_raises (label : string) (payload : value) (st : state)
  (e : exn) :
  on_connect (peer (calls st)) = Some e ->
  bench label payload st
  = (Raises e,
     {| calls := S (calls st);
        trace := trace st ++ [EvConnect (SOCK cfg); EvClose] |}).
Proof.
  intros H. apply bench_raises. now apply send_rpc_connect_raises.
Qed.

(** When the endpoint is missing or refuses from the start, [main]
    ends with the exception of [s.connect] inside the first iteration. *)
Lemma main_unreachable (e : exn) :
  0 < COUNT cfg ->
  on_connect (peer 0) = Some e ->
  main initial
  = (Raises e,
     {| calls := 1;
        trace := [EvPrintSocket (SOCK cfg);
                  EvPrintConfig (COUNT cfg) (SLEEP_SECS cfg)
                                (DO_CREATE cfg) (DO_ACTIVATE cfg);
                  EvPrintIteration 1; EvConnect (SOCK cfg); EvClose] |}).
Proof.
  intros Hcount Hconn. unfold main.
  destruct (Z.to_nat (COUNT cfg)) as [|n] eqn:En; [lia|].
  unfold bind at 1. unfold emit at 1.
  unfold bind at 1. unfold emit at 1.
  apply for_range_raises. unfold iteration.
  unfold bind at 1. unfold emit at 1.
  unfold bind at 1.
  erewrite bench_connect_raises; [reflexivity | exact Hconn].
Qed.

(** ** More on the read loop *)

Lemma eqb_newline_sym (b : byte) : Byte.eqb b newline = Byte.eqb newline b.
Proof.
  destruct (Byte.eqb b newline) eqn:E1, (Byte.eqb newline b) eqn:E2;
    try reflexivity.
  - apply Byte.byte_dec_bl in E1. subst b. discriminate.
  - apply Byte.byte_dec_bl in E2. subst b. discriminate.
Qed.

(** Nothing after the first newline counts. *)
Lemma before_newline_app_stop (a b : bytes) :
  has_newline a = true -> before_newline (a ++ b) = before_newline a.
Proof.
  induction a as [|x a IH]; simpl; [discriminate|].
  rewrite eqb_newline_sym.
  destruct (Byte.eqb newline x); simpl; [reflexivity|].
  intros H. now rewrite (IH H).
Qed.

Lemma read_loop_clean (events : list recv_event) :
  forall acc buf,
    has_newline acc = false ->
    read_loop acc events = Returns buf ->
    has_newline buf = false.
Proof.
  induction events as [|ev events IH]; intros acc buf Hacc; simpl.
  - intros [= <-]. assumption.
  - destruct ev as [[|b c]|e].
    + intros [= <-]. assumption.
    + destruct (has_newline (acc ++ b :: c)) eqn:E.
      * intros [= <-]. apply before_newline_clean.
      * apply IH. assumption.
    + destruct (is_socket_timeout e); [|discriminate].
      intros [= <-]. assumption.
Qed.

Lemma read_loop_stream (cs : list bytes) :
  forall acc rest,
    Forall (fun c => c <> []) cs ->
    has_newline acc = false ->
    has_newline (acc ++ List.concat cs) = true ->
    read_loop acc (chunks cs ++ rest)
    = Returns (before_newline (acc ++ List.concat cs)).
Proof.
  induction cs as [|c cs IH]; intros acc rest Hne Hacc Hnl.
  - simpl in Hnl. rewrite app_nil_r in Hnl. congruence.
  - inversion Hne as [|? ? Hc Hcs]; subst.
    destruct c as [|b c]; [now elim Hc|].
    change (List.concat ((b :: c) :: cs)) with ((b :: c) ++ List.concat cs)
      in Hnl |- *.
    rewrite app_assoc in Hnl |- *.
    change (chunks ((b :: c) :: cs) ++ rest)
      with (RecvChunk (b :: c) :: (chunks cs ++ rest)).
    cbn [read_loop].
    destruct (has_newline (acc ++ b :: c)) eqn:E.
    + now rewrite (before_newline_app_stop (acc ++ b :: c) _ E).
    + now apply IH.
Qed.

(** X1.  Whatever the peer does, the bytes that the read loop hands to
    the decoder hold no newline. *)
Theorem read_loop_result_has_no_newline
  (events : list recv_event) (buf : bytes) :
  read_loop [] events = Returns buf -> has_newline buf = false.
Proof. now apply read_loop_clean. Qed.

(** X2.  When the peer sends non-empty chunks that hold a newline
    somewhere, the read loop returns the bytes before the first newline
    of the whole stream: neither the way the stream is cut into chunks
    nor what follows matters. *)
Theorem read_loop_first_line (cs : list bytes) (rest : list recv_event) :
  Forall (fun c => c <> []) cs ->
  has_newline (List.concat cs) = true ->
  read_loop [] (chunks cs ++ rest) = Returns (before_newline (List.concat cs)).
Proof.
  intros Hne Hnl. now apply (read_loop_stream cs [] rest).
Qed.

(** ** More on the extraction *)

Lemma window_keys_true_or_empty (m : dict) :
  truthy (window_keys m) = false -> window_keys m = empty_str.
Proof.
  unfold window_keys, py_or.
  repeat match goal with
         | |- context [if truthy ?v then _ else _] =>
             is_var v || (lazymatch v with get _ _ => idtac end);
             destruct (truthy v) eqn:?
         end; congruence.
Qed.

(** X3.  The only value [first_window_id] returns that counts as false
    is the empty string: never [None], [0], [False], [[]] or [{}]. *)
Theorem first_window_id_falsy_is_empty (resp v : value) :
  first_window_id resp = Returns v ->
  truthy v = false ->
  v = empty_str.
Proof.
  destruct resp as [ | | | | | |r]; try discriminate.
  assert (Hd : forall res, truthy (result_as_dict res) = false ->
                           result_as_dict res = empty_str).
  { intros res. unfold result_as_dict.
    destruct res as [ | | | | | |rd]; try reflexivity.
    destruct (get rd "windows") as [ | | | | |[|first l]| ];
      try apply window_keys_true_or_empty.
    destruct first as [ | | | |s| | ]; try apply window_keys_true_or_empty.
    destruct s; [reflexivity|discriminate]. }
  assert (Hcases :
            first_window_id (PyDict r)
            = Returns (result_as_dict (get r "result"))
            \/ (exists s, first_window_id (PyDict r) = Returns (PyStr s))
            \/ (exists fd,
                  first_window_id (PyDict r) = Returns (window_keys fd))).
  { unfold first_window_id.
    destruct (get r "result") as [ | | | | |[|first l]| ];
      try (left; reflexivity).
    destruct first; try (left; reflexivity).
    - right; left; eauto.
    - right; right; eauto. }
  intros Hr Hv.
  destruct Hcases as [Hc|[[s Hc]|[fd Hc]]]; rewrite Hc in Hr.
  - assert (Ev : v = result_as_dict (get r "result")) by congruence.
    rewrite Ev in Hv |- *. now apply Hd.
  - assert (Ev : v = PyStr s) by congruence.
    rewrite Ev in Hv |- *. destruct s; [reflexivity|discriminate].
  - assert (Ev : v = window_keys fd) by congruence.
    rewrite Ev in Hv |- *. now apply window_keys_true_or_empty.
Qed.

(** X4.  When [result] is a mapping whose [windows] is a non-empty list
    that starts with a string or a mapping, the answer is the one for
    that list given as [result]: the keys of [result] itself are not
    looked at, even if the first window has no identifier. *)
Theorem first_window_id_windows (r rd : dict) (first : value)
  (rest : list value) :
  lookup "result" r = Some (PyDict rd) ->
  lookup "windows" rd = Some (PyList (first :: rest)) ->
  is_str first || is_dict first = true ->
  first_window_id (PyDict r)
  = first_window_id (PyDict [("result", PyList (first :: rest))]).
Proof.
  intros Hres Hwin Hkind.
  unfold first_window_id. rewrite (get_present _ _ _ Hres).
  unfold result_as_dict. rewrite (get_present _ _ _ Hwin).
  destruct first; simpl in Hkind; try discriminate; reflexivity.
Qed.

(** ** Following a run *)

(** What [send_rpc] leaves behind, returning or raising: one more
    connection, opened and closed, with the request written in between
    when [s.connect] went through. *)
Lemma send_rpc_leaves (payload : value) (st : state) :
  snd (send_rpc payload st)
  = {| calls := S (calls st);
       trace := trace st
                ++ match on_connect (peer (calls st)) with
                   | Some _ => [EvConnect (SOCK cfg); EvClose]
                   | None => [EvConnect (SOCK cfg); EvSendall payload; EvClose]
                   end |}.
Proof.
  unfold send_rpc, log.
  destruct (on_connect (peer (calls st))); simpl;
    [now rewrite <- !app_assoc|].
  destruct (on_sendall (peer (calls st))); simpl;
    [now rewrite <- !app_assoc|].
  destruct (read_loop [] (on_recv (peer (calls st)))); simpl;
    now rewrite <- !app_assoc.
Qed.

Lemma socket_after_app (a b : list event) :
  forall open,
    socket_after open (a ++ b)
    = match socket_after open a with
      | Some open' => socket_after open' b
      | None => None
      end.
Proof.
  induction a as [|ev a IH]; intros open; simpl; [reflexivity|].
  destruct ev, open; try reflexivity; apply IH.
Qed.

Lemma iterations_of_app (a b : list event) :
  iterations_of (a ++ b) = iterations_of a ++ iterations_of b.
Proof.
  induction a as [|ev a IH]; simpl; [reflexivity|].
  destruct ev; simpl; now rewrite ?IH.
Qed.

Lemma orderly_nil : orderly [].
Proof. split; [constructor|reflexivity]. Qed.

Lemma orderly_app (a b : list event) : orderly a -> orderly b -> orderly (a ++ b).
Proof.
  intros [Ha Sa] [Hb Sb]. split.
  - apply Forall_app. now split.
  - now rewrite socket_after_app, Sa.
Qed.

Lemma headerless_app (a b : list event) :
  headerless a -> headerless b -> headerless (a ++ b).
Proof.
  unfold headerless. intros Ha Hb. now rewrite iterations_of_app, Ha, Hb.
Qed.

(** How [adds] goes through the monad. *)
Lemma adds_ret {A} (a : A) (P : list event -> Prop) : P [] -> adds (ret a) P.
Proof. intros HP st. exists []. simpl. now rewrite app_nil_r. Qed.

Lemma adds_lift {A} (r : result A) (P : list event -> Prop) :
  P [] -> adds (lift r) P.
Proof. intros HP st. exists []. simpl. now rewrite app_nil_r. Qed.

Lemma adds_emit (ev : event) (P : list event -> Prop) :
  P [ev] -> adds (emit ev) P.
Proof. intros HP st. exists [ev]. now split. Qed.

Lemma adds_bind {A B} (m : M A) (k : A -> M B)
  (P Q R : list event -> Prop) :
  adds m P ->
  (forall a, adds (k a) Q) ->
  (forall o1, P o1 -> R o1) ->
  (forall o1 o2, P o1 -> Q o2 -> R (o1 ++ o2)) ->
  adds (bind m k) R.
Proof.
  intros Hm Hk HR1 HR2 st. unfold bind.
  destruct (Hm st) as (o1 & E1 & P1).
  destruct (m st) as [[a|e] st1]; simpl in E1.
  - destruct (Hk a st1) as (o2 & E2 & Q2).
    exists (o1 ++ o2). split; [|now apply HR2].
    now rewrite E2, E1, app_assoc.
  - exists o1. split; [assumption|now apply HR1].
Qed.

Lemma adds_seq {A B} (m : M A) (k : A -> M B) (P : list event -> Prop) :
  (forall a b, P a -> P b -> P (a ++ b)) ->
  adds m P -> (forall a, adds (k a) P) -> adds (bind m k) P.
Proof.
  intros Happ Hm Hk. apply (adds_bind m k P P P); auto.
Qed.

Lemma adds_send_rpc (payload : value) (P : list event -> Prop) :
  P [EvConnect (SOCK cfg); EvClose] ->
  P [EvConnect (SOCK cfg); EvSendall payload; EvClose] ->
  adds (send_rpc payload) P.
Proof.
  intros H1 H2 st. rewrite send_rpc_leaves. simpl.
  eexists. split; [reflexivity|].
  now destruct (on_connect (peer (calls st))).
Qed.

(** The steps of the script, one by one. *)
Lemma orderly_one (ev : event) :
  allowed ev -> socket_after false [ev] = Some false -> orderly [ev].
Proof.
  intros Ha Hs. split; [|assumption].
  apply Forall_cons; [assumption|apply Forall_nil].
Qed.

Lemma orderly_send_rpc (payload : value) :
  allowed (EvSendall payload) -> adds (send_rpc payload) orderly.
Proof.
  intros Hp. apply adds_send_rpc; (split; [|reflexivity]);
    repeat (apply Forall_cons;
            [first [assumption | exact I | reflexivity]|]);
    apply Forall_nil.
Qed.

Lemma orderly_bench (label : string) (payload : value) :
  allowed (EvSendall payload) ->
  allowed (EvElapsed label) ->
  adds (bench label payload) orderly.
Proof.
  intros Hp Hl. unfold bench.
  apply adds_seq; [apply orderly_app|now apply orderly_send_rpc|].
  intros resp.
  apply adds_seq; [apply orderly_app| |intros _; apply adds_ret, orderly_nil].
  apply adds_emit. now apply orderly_one.
Qed.

Lemma orderly_create : adds create orderly.
Proof.
  unfold create. destruct (DO_CREATE cfg) eqn:Ec.
  - apply adds_seq; [apply orderly_app| |intros r; apply adds_lift, orderly_nil].
    apply orderly_bench; simpl; auto.
  - apply adds_ret, orderly_nil.
Qed.

Lemma orderly_activate (list_id create_id : value) :
  adds (activate list_id create_id) orderly.
Proof.
  unfold activate. destruct (DO_ACTIVATE cfg) eqn:Ea.
  - destruct (truthy (py_or list_id create_id)) eqn:Et.
    + apply adds_seq; [apply orderly_app| |intros r; apply adds_ret, orderly_nil].
      apply orderly_bench; simpl; [|auto].
      right; right. split; [assumption|]. now exists (py_or list_id create_id).
    + apply adds_emit. now apply orderly_one.
  - apply adds_ret, orderly_nil.
Qed.

Lemma orderly_after_header (i : Z) :
  adds (list_resp <- bench "ListWindows" list_request ;;
        list_id <- lift (first_window_id list_resp) ;;
        create_id <- create ;;
        activate list_id create_id ;;
        emit (EvSleep (SLEEP_SECS cfg))) orderly.
Proof.
  apply adds_seq; [apply orderly_app|apply orderly_bench; simpl; auto|].
  intros list_resp.
  apply adds_seq; [apply orderly_app|apply adds_lift, orderly_nil|].
  intros list_id.
  apply adds_seq; [apply orderly_app|apply orderly_create|].
  intros create_id.
  apply adds_seq; [apply orderly_app|apply orderly_activate|].
  intros _. apply adds_emit. now apply orderly_one.
Qed.

Lemma orderly_iteration (i : Z) : adds (iteration i) orderly.
Proof.
  unfold iteration.
  apply adds_seq; [apply orderly_app| |intros _; apply (orderly_after_header i)].
  apply adds_emit. now apply orderly_one.
Qed.

Lemma orderly_for_range (n : nat) :
  forall first, adds (for_range first n iteration) orderly.
Proof.
  induction n as [|n IH]; intros first; simpl.
  - apply adds_ret, orderly_nil.
  - apply adds_seq; [apply orderly_app|apply orderly_iteration|].
    intros _. apply IH.
Qed.

Lemma orderly_main : adds main orderly.
Proof.
  unfold main.
  apply adds_seq; [apply orderly_app| |intros _].
  { apply adds_emit. now apply orderly_one. }
  apply adds_seq; [apply orderly_app| |intros _; apply orderly_for_range].
  apply adds_emit. now apply orderly_one.
Qed.

(** X5.  In a run, however it ends, the socket calls come in order:
    [s.connect] with no socket open, the request on the open socket, the
    closing before the next print, sleep or connection, and no socket is
    left open at the end. *)
Theorem main_sockets_in_order :
  socket_after false (trace (snd (main initial))) = Some false.
Proof.
  destruct (orderly_main initial) as (out & E & _ & Hs).
  now rewrite E.
Qed.

(** X6.  A run connects to [SOCK] only and writes three kinds of
    requests only: [ListWindows] with [id] 1, [CreateWindow] with [id]
    2 when [DO_CREATE] is set, [ActivateWindow] with [id] 3 when
    [DO_ACTIVATE] is set, and then with a [window_id] that counts as
    true.  The line about a skipped activation is printed with
    [DO_ACTIVATE] only. *)
Theorem main_requests (ev : event) :
  In ev (trace (snd (main initial))) ->
  match ev with
  | EvConnect path => path = SOCK cfg
  | EvSendall payload =>
      payload
      = PyDict [("jsonrpc", PyStr "2.0"); ("id", PyInt 1);
                ("method", PyStr "ListWindows")]
      \/ (DO_CREATE cfg = true
          /\ payload
             = PyDict [("jsonrpc", PyStr "2.0"); ("id", PyInt 2);
                       ("method", PyStr "CreateWindow");
                       ("params",
                        PyDict [("nvim_args", PyList [PyStr (PATH_ARG cfg)])])])
      \/ (DO_ACTIVATE cfg = true
          /\ exists target,
               truthy target = true
               /\ payload
                  = PyDict [("jsonrpc", PyStr "2.0"); ("id", PyInt 3);
                            ("method", PyStr "ActivateWindow");
                            ("params", PyDict [("window_id", target)])])
  | EvPrintSkipped => DO_ACTIVATE cfg = true
  | _ => True
  end.
Proof.
  destruct (orderly_main initial) as (out & E & Ha & _).
  rewrite E. simpl. intros Hin.
  rewrite Forall_forall in Ha. specialize (Ha ev Hin).
  destruct ev; simpl in Ha; auto.
Qed.

(** Counting the connections. *)
Lemma opens_ret {A} (a : A) : opens_at_most (ret a) 0.
Proof. intros st. simpl. lia. Qed.

Lemma opens_lift {A} (r : result A) : opens_at_most (lift r) 0.
Proof. intros st. simpl. lia. Qed.

Lemma opens_emit (ev : event) : opens_at_most (emit ev) 0.
Proof. intros st. simpl. lia. Qed.

Lemma opens_bind {A B} (m : M A) (k : A -> M B) (a b : nat) :
  opens_at_most m a ->
  (forall x, opens_at_most (k x) b) ->
  opens_at_most (bind m k) (a + b).
Proof.
  intros Hm Hk st. unfold bind. specialize (Hm st).
  destruct (m st) as [[x|e] st1]; simpl in Hm.
  - specialize (Hk x st1). lia.
  - simpl. lia.
Qed.

Lemma opens_send_rpc (payload : value) : opens_at_most (send_rpc payload) 1.
Proof. intros st. rewrite send_rpc_leaves. simpl. lia. Qed.

Lemma opens_bench (label : string) (payload : value) :
  opens_at_most (bench label payload) 1.
Proof.
  unfold bench.
  apply (opens_bind _ _ 1 0); [apply opens_send_rpc|]. intros resp.
  apply (opens_bind _ _ 0 0); [apply opens_emit|]. intros _. apply opens_ret.
Qed.

Lemma opens_create : opens_at_most create (if DO_CREATE cfg then 1 else 0).
Proof.
  unfold create. destruct (DO_CREATE cfg).
  - apply (opens_bind _ _ 1 0); [apply opens_bench|].
    intros r. apply opens_lift.
  - apply opens_ret.
Qed.

Lemma opens_activate (list_id create_id : value) :
  opens_at_most (activate list_id create_id)
                (if DO_ACTIVATE cfg then 1 else 0).
Proof.
  unfold activate. destruct (DO_ACTIVATE cfg).
  - destruct (truthy (py_or list_id create_id)).
    + apply (opens_bind _ _ 1 0); [apply opens_bench|].
      intros r. apply opens_ret.
    + intros st. simpl. lia.
  - apply opens_ret.
Qed.

Lemma opens_iteration (i : Z) :
  opens_at_most (iteration i)
    (1 + (if DO_CREATE cfg then 1 else 0) + (if DO_ACTIVATE cfg then 1 else 0)).
Proof.
  unfold iteration. intros st.
  assert (H : opens_at_most
                (emit (EvPrintIteration i) ;;
                 list_resp <- bench "ListWindows" list_request ;;
                 list_id <- lift (first_window_id list_resp) ;;
                 create_id <- create ;;
                 activate list_id create_id ;;
                 emit (EvSleep (SLEEP_SECS cfg)))
                (0 + (1 + (0 + ((if DO_CREATE cfg then 1 else 0)
                                + ((if DO_ACTIVATE cfg then 1 else 0) + 0)))))).
  { apply opens_bind; [apply opens_emit|]. intros _.
    apply opens_bind; [apply opens_bench|]. intros list_resp.
    apply opens_bind; [apply opens_lift|]. intros list_id.
    apply opens_bind; [apply opens_create|]. intros create_id.
    apply opens_bind; [apply opens_activate|]. intros _.
    apply opens_emit. }
  specialize (H st). lia.
Qed.

Lemma opens_for_range (n : nat) (per : nat) (body : Z -> M unit) :
  (forall i, opens_at_most (body i) per) ->
  forall first, opens_at_most (for_range first n body) (n * per).
Proof.
  intros Hbody. induction n as [|n IH]; intros first; simpl.
  - apply opens_ret.
  - apply opens_bind; [apply Hbody|]. intros _. apply IH.
Qed.

(** X7.  A run opens at most one connection per request of an
    iteration: three per iteration with the shipped constants, one less
    for each of [DO_CREATE] and [DO_ACTIVATE] that is off, and none at
    all when [COUNT] is not positive. *)
Theorem main_connections_bound :
  (calls (snd (main initial))
   <= Z.to_nat (COUNT cfg)
      * (1 + (if DO_CREATE cfg then 1 else 0)
           + (if DO_ACTIVATE cfg then 1 else 0)))%nat.
Proof.
  assert (H : opens_at_most main
                (0 + (0 + Z.to_nat (COUNT cfg)
                          * (1 + (if DO_CREATE cfg then 1 else 0)
                               + (if DO_ACTIVATE cfg then 1 else 0))))).
  { unfold main.
    apply opens_bind; [apply opens_emit|]. intros _.
    apply opens_bind; [apply opens_emit|]. intros _.
    apply opens_for_range. apply opens_iteration. }
  specialize (H initial). simpl in H. lia.
Qed.

(** Nothing but a healthy connection lets the script go on. *)
Lemma sound_ret {A} (a : A) : sound (ret a).
Proof. intros st x st' H [= _ <-]. assumption. Qed.

Lemma sound_lift {A} (r : result A) : sound (lift r).
Proof. intros st x st' H [= _ <-]. assumption. Qed.

Lemma sound_emit (ev : event) : sound (emit ev).
Proof. intros st x st' H [= _ <-]. assumption. Qed.

Lemma sound_bind {A B} (m : M A) (k : A -> M B) :
  sound m -> (forall a, sound (k a)) -> sound (bind m k).
Proof.
  intros Hm Hk st b st' H. unfold bind.
  destruct (m st) as [[a|e] st1] eqn:E; [|discriminate].
  intros Hb. apply (Hk a st1 b st'); [|assumption].
  now apply (Hm st a st1).
Qed.

Lemma sound_send_rpc (payload : value) : sound (send_rpc payload).
Proof.
  intros st v st' H. unfold send_rpc.
  destruct (on_connect (peer (calls st))) eqn:Ec; [discriminate|].
  destruct (on_sendall (peer (calls st))) eqn:Es; [discriminate|].
  destruct (read_loop [] (on_recv (peer (calls st)))) as [buf|e] eqn:Er;
    [|discriminate].
  intros [= _ <-] k Hk. simpl in Hk.
  destruct (Nat.eq_dec k (calls st)) as [->|Hne].
  - repeat split; eauto.
  - apply H. lia.
Qed.

Lemma sound_bench (label : string) (payload : value) :
  sound (bench label payload).
Proof.
  unfold bench. apply sound_bind; [apply sound_send_rpc|]. intros resp.
  apply sound_bind; [apply sound_emit|]. intros _. apply sound_ret.
Qed.

Lemma sound_iteration (i : Z) : sound (iteration i).
Proof.
  unfold iteration.
  apply sound_bind; [apply sound_emit|]. intros _.
  apply sound_bind; [apply sound_bench|]. intros list_resp.
  apply sound_bind; [apply sound_lift|]. intros list_id.
  apply sound_bind.
  { unfold create. destruct (DO_CREATE cfg); [|apply sound_ret].
    apply sound_bind; [apply sound_bench|]. intros r. apply sound_lift. }
  intros create_id.
  apply sound_bind; [|intros _; apply sound_emit].
  unfold activate. destruct (DO_ACTIVATE cfg); [|apply sound_ret].
  destruct (truthy (py_or list_id create_id)); [|apply sound_emit].
  apply sound_bind; [apply sound_bench|]. intros r. apply sound_ret.
Qed.

Lemma sound_for_range (n : nat) :
  forall first, sound (for_range first n iteration).
Proof.
  induction n as [|n IH]; intros first; simpl.
  - apply sound_ret.
  - apply sound_bind; [apply sound_iteration|]. intros _. apply IH.
Qed.

(** X8.  When [main] returns, every connection the run opened went
    through: [s.connect] and [s.sendall] did not raise and the read loop
    ended without an exception.  A failure on any connection of any
    iteration therefore ends the run; none is swallowed or retried. *)
Theorem main_returns_only_when_healthy (st : state) (k : nat) :
  main initial = (Returns tt, st) ->
  (k < calls st)%nat ->
  on_connect (peer k) = None
  /\ on_sendall (peer k) = None
  /\ exists buf, read_loop [] (on_recv (peer k)) = Returns buf.
Proof.
  intros Hmain Hk.
  assert (Hs : sound main).
  { unfold main.
    apply sound_bind; [apply sound_emit|]. intros _.
    apply sound_bind; [apply sound_emit|]. intros _.
    apply sound_for_range. }
  apply (Hs initial tt st); [|assumption|assumption].
  intros j Hj. simpl in Hj. lia.
Qed.

(** The iteration lines of a run. *)
Lemma headerless_bench (label : string) (payload : value) :
  adds (bench label payload) headerless.
Proof.
  unfold bench.
  apply adds_seq; [apply headerless_app| |intros resp].
  { apply adds_send_rpc; reflexivity. }
  apply adds_seq; [apply headerless_app| |intros _; now apply adds_ret].
  now apply adds_emit.
Qed.

Lemma headerless_after_header :
  adds (list_resp <- bench "ListWindows" list_request ;;
        list_id <- lift (first_window_id list_resp) ;;
        create_id <- create ;;
        activate list_id create_id ;;
        emit (EvSleep (SLEEP_SECS cfg))) headerless.
Proof.
  apply adds_seq; [apply headerless_app|apply headerless_bench|].
  intros list_resp.
  apply adds_seq; [apply headerless_app|now apply adds_lift|].
  intros list_id.
  apply adds_seq; [apply headerless_app| |intros create_id].
  { unfold create. destruct (DO_CREATE cfg); [|now apply adds_ret].
    apply adds_seq; [apply headerless_app|apply headerless_bench|].
    intros r. now apply adds_lift. }
  apply adds_seq; [apply headerless_app| |intros _; now apply adds_emit].
  unfold activate. destruct (DO_ACTIVATE cfg); [|now apply adds_ret].
  destruct (truthy (py_or list_id create_id)); [|now apply adds_emit].
  apply adds_seq; [apply headerless_app|apply headerless_bench|].
  intros r. now apply adds_ret.
Qed.

Lemma iteration_header (i : Z) :
  adds (iteration i) (fun out => iterations_of out = [i]).
Proof.
  unfold iteration.
  apply (adds_bind _ _ (fun out => iterations_of out = [i]) headerless).
  - now apply adds_emit.
  - intros _. apply headerless_after_header.
  - auto.
  - intros o1 o2 H1 H2. unfold headerless in H2.
    now rewrite iterations_of_app, H1, H2.
Qed.

Lemma for_range_headers (n : nat) :
  forall first st,
  exists out k,
    trace (snd (for_range first n iteration st)) = trace st ++ out
    /\ iterations_of out = numbers first k
    /\ (k <= n)%nat
    /\ (forall a st',
          for_range first n iteration st = (Returns a, st') -> k = n).
Proof.
  induction n as [|n IH]; intros first st.
  - exists [], 0%nat. simpl. rewrite app_nil_r. auto.
  - simpl. unfold bind.
    destruct (iteration_header first st) as (o1 & E1 & H1).
    destruct (iteration first st) as [[u|e] st1]; simpl in E1.
    + destruct (IH (first + 1) st1) as (o2 & k & E2 & H2 & Hk & Hret).
      exists (o1 ++ o2), (S k). repeat split.
      * now rewrite E2, E1, app_assoc.
      * rewrite iterations_of_app, H1, H2. reflexivity.
      * lia.
      * intros a st' Hr. now rewrite (Hret a st' Hr).
    + exists o1, 1%nat. repeat split; auto; [lia|discriminate].
Qed.

(** X9.  The iterations a run announces are numbered 1, 2, ... without
    a gap or a repetition, never more than [COUNT] of them, and exactly
    [COUNT] when [main] returns. *)
Theorem main_iterations :
  exists k,
    iterations_of (trace (snd (main initial))) = numbers 1 k
    /\ (k <= Z.to_nat (COUNT cfg))%nat
    /\ (fst (main initial) = Returns tt -> k = Z.to_nat (COUNT cfg)).
Proof.
  unfold main, bind, emit. simpl.
  destruct (for_range_headers (Z.to_nat (COUNT cfg)) 1
              (log (EvPrintConfig (COUNT cfg) (SLEEP_SECS cfg)
                                  (DO_CREATE cfg) (DO_ACTIVATE cfg))
                   (log (EvPrintSocket (SOCK cfg)) initial)))
    as (out & k & E & H & Hk & Hret).
  exists k. repeat split; [|assumption|].
  - rewrite E. simpl. assumption.
  - intros Hr.
    destruct (for_range 1 (Z.to_nat (COUNT cfg)) iteration _)
      as [[[]|e] st'] eqn:Er; [|discriminate].
    now apply (Hret tt st').
Qed.







(** X11.  When the first connection cannot be opened the process ends
    before any exchange, with status 130 if the exception is
    [KeyboardInterrupt] and 1 otherwise. *)
Theorem script_first_connect_fails (e : exn) :
  0 < COUNT cfg ->
  on_connect (peer 0) = Some e ->
  script
  = (match e with KeyboardInterrupt => 130 | _ => 1 end,
     [EvPrintSocket (SOCK cfg);
      EvPrintConfig (COUNT cfg) (SLEEP_SECS cfg)
                    (DO_CREATE cfg) (DO_ACTIVATE cfg);
      EvPrintIteration 1; EvConnect (SOCK cfg); EvClose]).
Proof.
  intros Hcount Hconn. unfold script.
  rewrite (main_unreachable e Hcount Hconn). now destruct e.
Qed.

(** X12.  With a [COUNT] that is not positive the script prints its two
    header lines, opens no connection and ends with status 0. *)
Theorem script_without_iterations :
  COUNT cfg <= 0 ->
  script
  = (0, [EvPrintSocket (SOCK cfg);
         EvPrintConfig (COUNT cfg) (SLEEP_SECS cfg)
                       (DO_CREATE cfg) (DO_ACTIVATE cfg)]).
Proof.
  intros Hcount. unfold script, main.
  replace (Z.to_nat (COUNT cfg)) with 0%nat by lia. reflexivity.
Qed.

(** X13.  When the peer closes, stays silent past the timeout or
    starts its reply with the newline, [send_rpc] returns [{}] and the
    decoder is not asked. *)
Theorem send_rpc_empty_reply (payload : value) (st : state) :
  on_connect (peer (calls st)) = None ->
  on_sendall (peer (calls st)) = None ->
  match on_recv (peer (calls st)) with
  | [] => True
  | RecvChunk [] :: _ => True
  | RecvChunk (b :: _) :: _ => b = newline
  | RecvRaises e :: _ => e = socket_timeout
  end ->
  fst (send_rpc payload st) = Returns empty_dict.
Proof.
  intros Hc Hs Hfirst.
  assert (Hr : read_loop [] (on_recv (peer (calls st))) = Returns []).
  { destruct (on_recv (peer (calls st))) as [|[[|b c]|e] rest];
      try reflexivity.
    - subst b. reflexivity.
    - subst e. reflexivity. }
  now rewrite (send_rpc_reply payload st [] Hc Hs Hr).
Qed.

End Script.

(** ** The script on actual peers *)

(** C1.  [send_rpc] returns whatever bytes arrive, yet the benchmark
    loop does not survive every reply: when the peer answers the line
    [["W1"]], valid JSON that is not an object, [send_rpc] returns the
    list and [first_window_id] raises [AttributeError] on it. *)
Theorem C1_list_reply_raises :
  loads_lite (text "['W1']") = Some (PyList [PyStr "W1"])
  /\ fst (send_rpc loads_lite (fun _ => answers (line "['W1']"))
                   default_config list_request initial)
     = Returns (PyList [PyStr "W1"])
  /\ first_window_id (PyList [PyStr "W1"]) = Raises AttributeError.
Proof. repeat split. Qed.

(** C2.  A write that runs into the timeout is not treated as a read
    that does: with a peer that never answers [send_rpc] returns [{}],
    with a peer on which [s.sendall] times out it raises
    [socket.timeout]. *)
Theorem C2_write_timeout_raises :
  fst (send_rpc loads_lite (fun _ => silent) default_config
                list_request initial)
  = Returns empty_dict
  /\ fst (send_rpc loads_lite (fun _ => stalled) default_config
                   list_request initial)
     = Raises socket_timeout.
Proof. repeat split. Qed.

(** C3, as stated, fails.  In [{"result": [{"window_id": 0, "id":
    "W9"}]}] the key [window_id] is present with the value 0, the first
    present value; [first_window_id] returns ["W9"]. *)
Lemma C3_present_zero_is_skipped :
  let first := [("window_id", PyInt 0); ("id", PyStr "W9")] in
  let resp := PyDict [("result", PyList [PyDict first])] in
  first_present id_keys first = PyInt 0
  /\ first_window_id resp = Returns (PyStr "W9")
  /\ first_window_id resp <> Returns (first_present id_keys first).
Proof. repeat split. discriminate. Qed.


(** C5.  [first_window_id] returns on every [dict], but not always a
    string: on [{"result": [{"id": 5}]}] it returns the integer 5. *)
Theorem C5_integer_identifier :
  loads_lite (text "{'result': [{'id': 5}]}")
  = Some (PyDict [("result", PyList [PyDict [("id", PyInt 5)]])])
  /\ first_window_id (PyDict [("result", PyList [PyDict [("id", PyInt 5)]])])
     = Returns (PyInt 5)
  /\ is_str (PyInt 5) = false.
Proof. repeat split. Qed.

(** C8.  A failure of [s.connect] leaves [main], but it is not the only
    thing that aborts the run.  With every connection opened and
    answered by the line [["W1"]] the run ends in the first iteration on
    [AttributeError], exit status 1; with a peer on which [s.sendall]
    times out it ends on [socket.timeout]. *)
Theorem C8_aborts_without_connect_failure :
  on_connect (answers (line "['W1']")) = None
  /\ fst (main loads_lite (fun _ => answers (line "['W1']")) default_config
               initial)
     = Raises AttributeError
  /\ fst (script loads_lite (fun _ => answers (line "['W1']")) default_config)
     = 1
  /\ on_connect stalled = None
  /\ fst (main loads_lite (fun _ => stalled) default_config initial)
     = Raises socket_timeout
  /\ fst (script loads_lite (fun _ => stalled) default_config) = 1.
Proof. repeat split. Qed.

(** The part of C8 that holds, on the shipped constants: a missing or
    refusing endpoint ends the run with status 1 before any iteration
    completes. *)
Lemma unreachable_endpoint_exits_1 (e : exn) :
  e = FileNotFoundError \/ e = ConnectionRefusedError ->
  script loads_lite (fun _ => unreachable e) default_config
  = (1, [EvPrintSocket "/tmp/neovide.sock";
         EvPrintConfig 10 (3 # 10) true true;
         EvPrintIteration 1; EvConnect "/tmp/neovide.sock"; EvClose]).
Proof. intros [-> | ->]; reflexivity. Qed.

(** ** The theorems at work *)

(** [{"result": [{"window_id": "", "id": "W9", "windowId": "W3"}]}]:
    the empty [window_id] is passed over and [id] wins. *)
Lemma C3_first_true_key_witness :
  let first := [("window_id", empty_str); ("id", PyStr "W9");
                ("windowId", PyStr "W3")] in
  first_window_id (PyDict [("result", PyList [PyDict first])])
  = Returns (PyStr "W9").
Proof.
  exact (proj1 (C3_first_true_key
                  [("result",
                    PyList [PyDict [("window_id", empty_str);
                                    ("id", PyStr "W9");
                                    ("windowId", PyStr "W3")]])]
                  _ [] eq_refl)).
Defined.

(** A list of three strings, and other fields beside [result]. *)
Lemma C9_documented_shapes_witness :
  first_window_id
    (PyDict [("jsonrpc", PyStr "2.0");
             ("result", PyList [PyStr "W1"; PyStr "W2"; PyStr "W3"]);
             ("id", PyInt 1)])
  = Returns (PyStr "W1").
Proof.
  exact (proj1 C9_documented_shapes
           [("jsonrpc", PyStr "2.0");
            ("result", PyList [PyStr "W1"; PyStr "W2"; PyStr "W3"]);
            ("id", PyInt 1)]
           "W1" [PyStr "W2"; PyStr "W3"] eq_refl).
Defined.

(** [{"result": {"windows": [42], "id": "X"}}] gives ["X"]. *)
Lemma C10_windows_fall_through_witness :
  first_window_id
    (PyDict [("result",
              PyDict [("windows", PyList [PyInt 42]); ("id", PyStr "X")])])
  = Returns (PyStr "X").
Proof.
  exact (C10_windows_fall_through
           [("result",
             PyDict [("windows", PyList [PyInt 42]); ("id", PyStr "X")])]
           [("windows", PyList [PyInt 42]); ("id", PyStr "X")]
           (PyInt 42) [] eq_refl eq_refl eq_refl eq_refl).
Defined.

(** An undecodable line: [send_rpc] returns [{}]. *)
Lemma C4_empty_and_undecodable_witness :
  fst (send_rpc loads_lite (fun _ => answers (line "{'result': "))
                default_config list_request initial)
  = Returns empty_dict.
Proof.
  exact (proj2 (proj2 (proj2
           (C4_empty_and_undecodable loads_lite
              (fun _ => answers (line "{'result': ")) default_config)))
           list_request initial (text "{'result': ")
           eq_refl eq_refl eq_refl eq_refl).
Defined.

(** One iteration against a peer that answers every request with
    [{"result": ["W1"]}]: the activation targets ["W1"]. *)
Lemma C7_activation_step_witness :
  exists more,
    trace (snd (iteration loads_lite
                  (fun _ => answers (line "{'result': ['W1']}"))
                  default_config 1 initial))
    = [EvPrintIteration 1;
       EvConnect "/tmp/neovide.sock";
       EvSendall (list_request); EvClose; EvElapsed "ListWindows";
       EvConnect "/tmp/neovide.sock";
       EvSendall (create_request default_config); EvClose;
       EvElapsed "CreateWindow"]
      ++ EvConnect "/tmp/neovide.sock"
         :: EvSendall
              (PyDict [("jsonrpc", PyStr "2.0"); ("id", PyInt 3);
                       ("method", PyStr "ActivateWindow");
                       ("params", PyDict [("window_id", PyStr "W1")])])
         :: more.
Proof.
  exact (proj2 (proj2 (proj2
           (C7_activation_step loads_lite
              (fun _ => answers (line "{'result': ['W1']}"))
              default_config 1 initial _ _
              (PyDict [("result", PyList [PyStr "W1"])])
              (PyStr "W1") (PyStr "W1")
              eq_refl eq_refl eq_refl eq_refl)))
           eq_refl eq_refl).
Defined.

(** A peer that answers [{"result": []}] to everything: no identifier
    is found and the activation is skipped. *)
Example empty_result_skips_activation :
  snd (iteration loads_lite (fun _ => answers (line "{'result': []}"))
                 default_config 1 initial)
  = {| calls := 2;
       trace := [EvPrintIteration 1;
                 EvConnect "/tmp/neovide.sock"; EvSendall list_request;
                 EvClose; EvElapsed "ListWindows";
                 EvConnect "/tmp/neovide.sock";
                 EvSendall (create_request default_config);
                 EvClose; EvElapsed "CreateWindow";
                 EvPrintSkipped; EvSleep (3 # 10)] |}.
Proof. reflexivity. Qed.

(** ** The further properties at work *)

(** Two lines in one chunk: only the first one is kept. *)
Lemma read_loop_result_has_no_newline_witness :
  has_newline (text "{'result': []}") = false.
Proof.
  exact (read_loop_result_has_no_newline
           [RecvChunk (line "{'result': []}" ++ line "{}")]
           (text "{'result': []}") eq_refl).
Defined.

(** The same line, cut in three, with more behind it. *)
Lemma read_loop_first_line_witness :
  read_loop []
    (chunks [text "{'resu"; text "lt': []"; text "}" ++ newline :: text "{"]
     ++ [RecvChunk (text "}"); RecvRaises ConnectionResetError])
  = Returns (text "{'result': []}").
Proof.
  refine (read_loop_first_line
            [text "{'resu"; text "lt': []"; text "}" ++ newline :: text "{"]
            [RecvChunk (text "}"); RecvRaises ConnectionResetError]
            _ eq_refl).
  repeat constructor; discriminate.
Defined.

(** [{"result": [{"id": 0}]}]: the zero is not returned. *)
Lemma first_window_id_falsy_is_empty_witness :
  window_keys [("id", PyInt 0)] = empty_str.
Proof.
  exact (first_window_id_falsy_is_empty
           (PyDict [("result", PyList [PyDict [("id", PyInt 0)]])])
           (window_keys [("id", PyInt 0)]) eq_refl eq_refl).
Defined.

(** [{"result": {"windows": [{}], "id": "X"}}]: the first window has no
    identifier and the [id] of [result] is not used. *)
Lemma first_window_id_windows_witness :
  first_window_id
    (PyDict [("result",
              PyDict [("windows", PyList [PyDict []]); ("id", PyStr "X")])])
  = Returns empty_str.
Proof.
  exact (first_window_id_windows
           [("result",
             PyDict [("windows", PyList [PyDict []]); ("id", PyStr "X")])]
           [("windows", PyList [PyDict []]); ("id", PyStr "X")]
           (PyDict []) [] eq_refl eq_refl eq_refl).
Defined.

(** The first request of a run is [ListWindows]. *)
Lemma main_requests_witness :
  list_request
  = PyDict [("jsonrpc", PyStr "2.0"); ("id", PyInt 1);
            ("method", PyStr "ListWindows")]
  \/ (DO_CREATE (with_count 1) = true
      /\ list_request = create_request (with_count 1))
  \/ (DO_ACTIVATE (with_count 1) = true
      /\ exists target,
           truthy target = true
           /\ list_request
              = PyDict [("jsonrpc", PyStr "2.0"); ("id", PyInt 3);
                        ("method", PyStr "ActivateWindow");
                        ("params", PyDict [("window_id", target)])]).
Proof.
  refine (main_requests loads_lite
            (fun _ => answers (line "{'result': ['W1']}")) (with_count 1)
            (EvSendall list_request) _).
  vm_compute. do 4 right. left. reflexivity.
Defined.

(** A run of two iterations that returns: its fourth connection went
    through. *)
Lemma main_returns_only_when_healthy_witness :
  on_connect (answers (line "{'result': ['W1']}")) = None
  /\ on_sendall (answers (line "{'result': ['W1']}")) = None
  /\ exists buf,
       read_loop [] (on_recv (answers (line "{'result': ['W1']}")))
       = Returns buf.
Proof.
  refine (main_returns_only_when_healthy loads_lite
            (fun _ => answers (line "{'result': ['W1']}")) (with_count 2)
            (snd (main loads_lite
                       (fun _ => answers (line "{'result': ['W1']}"))
                       (with_count 2) initial))
            3%nat _ _).
  - vm_compute. reflexivity.
  - vm_compute. repeat constructor.
Defined.


(** No socket at the path: status 1, nothing but the attempt. *)
Lemma script_first_connect_fails_witness :
  script loads_lite (fun _ => unreachable FileNotFoundError) default_config
  = (1, [EvPrintSocket "/tmp/neovide.sock";
         EvPrintConfig 10 (3 # 10) true true;
         EvPrintIteration 1; EvConnect "/tmp/neovide.sock"; EvClose]).
Proof.
  exact (script_first_connect_fails loads_lite
           (fun _ => unreachable FileNotFoundError) default_config
           FileNotFoundError eq_refl eq_refl).
Defined.

(** [COUNT = 0] *)
Lemma script_without_iterations_witness :
  script loads_lite (fun _ => silent) (with_count 0)
  = (0, [EvPrintSocket "/tmp/neovide.sock";
         EvPrintConfig 0 (3 # 10) true true]).
Proof.
  refine (script_without_iterations loads_lite (fun _ => silent)
            (with_count 0) _).
  intros H. discriminate H.
Defined.

(** A reply that is an empty line. *)
Lemma send_rpc_empty_reply_witness :
  fst (send_rpc loads_lite (fun _ => answers (line EmptyString))
                default_config list_request initial)
  = Returns empty_dict.
Proof.
  exact (send_rpc_empty_reply loads_lite
           (fun _ => answers (line EmptyString)) default_config
           list_request initial eq_refl eq_refl eq_refl).
Defined.
